(** * A shallow embedding of the fen-generator crate (src/lib.rs)

    The crate builds a random chess board with two non-adjacent kings and
    serialises it to FEN.  Integers of the source are modelled as [nat]
    ([usize]) or [Z] ([i8], [i32]); the 64-slot array of the board is a list
    of length 64, the length being part of the record as in the Rust type;
    strings are Stdlib strings built by appending characters, like [push]. *)

From stdpp Require Import base list strings.
From Stdlib Require Import ZArith Lia Ascii.
From Stdlib Require Numbers.DecimalString.

Open Scope string_scope.

(** ** Data model *)

Definition N_SQUARES : nat := 64.

Inductive Color := White | Black.

Inductive PieceType := Pawn | Rook | Knight | Bishop | Queen | King.

Record Piece := mkPiece { piece_type : PieceType; color : Color }.

(** [squares: [Option<Piece>; N_SQUARES]]: the array length is part of the
    type, hence the field [squares_len]. *)
Record Board := mkBoard {
  squares : list (option Piece);
  turn : Color;
  squares_len : length squares = N_SQUARES
}.

#[global] Instance Color_eq_dec : EqDecision Color.
Proof. solve_decision. Defined.
#[global] Instance PieceType_eq_dec : EqDecision PieceType.
Proof. solve_decision. Defined.
#[global] Instance Piece_eq_dec : EqDecision Piece.
Proof. solve_decision. Defined.

(** ** Coordinates *)

(** [board_index]: the [debug_assert!] is compiled out in release builds;
    the claims only use it on valid coordinates. *)
Definition board_index (file rank : nat) : nat := 8 * rank + file.

Definition board_index_reverse (index : nat) : nat * nat :=
  (index mod 8, index / 8).

(** ** [Piece::to_char] *)

Definition to_ascii_uppercase (c : Ascii.ascii) : Ascii.ascii :=
  let n := Ascii.nat_of_ascii c in
  if ((97 <=? n) && (n <=? 122))%nat then Ascii.ascii_of_nat (n - 32)%nat else c.

Definition to_char (p : Piece) : Ascii.ascii :=
  let letter :=
    match piece_type p with
    | Pawn => "p"%char
    | Rook => "r"%char
    | Knight => "n"%char
    | Bishop => "b"%char
    | Queen => "q"%char
    | King => "k"%char
    end in
  match color p with
  | White => to_ascii_uppercase letter
  | Black => letter
  end.

(** ** [Board::new] *)

Definition new : Board :=
  {| squares := repeat None N_SQUARES; turn := White; squares_len := eq_refl |}.

(** Indexing the array: in bounds for every index the code uses. *)
Definition square_at (b : Board) (i : nat) : option Piece :=
  nth i (squares b) None.

(** [fen.push(c)] and [fen.push_str(s)]. *)
Definition push (s : string) (c : Ascii.ascii) : string :=
  s +:+ String.String c EmptyString.

Definition push_str (s t : string) : string := s +:+ t.

(** [empty_squares_count.to_string()] for an [i32]. *)
Definition i32_to_string (n : Z) : string :=
  DecimalString.NilEmpty.string_of_int (Z.to_int n).

(** ** [Board::to_str_fen] *)

(** The inner loop [for file in 0..8], state [(fen, empty_squares_count)]. *)
Fixpoint fen_files (b : Board) (rank : nat) (files : list nat)
    (st : string * Z) : string * Z :=
  match files with
  | [] => st
  | file :: rest =>
      let '(fen, empty_squares_count) := st in
      match square_at b (board_index file rank) with
      | Some p =>
          let fen := if Z.eqb empty_squares_count 0 then fen
                     else push_str fen (i32_to_string empty_squares_count) in
          fen_files b rank rest (push fen (to_char p), 0%Z)
      | None => fen_files b rank rest (fen, (empty_squares_count + 1)%Z)
      end
  end.

(** One iteration of the outer loop body, up to the [break] test. *)
Definition fen_rank (b : Board) (rank : nat) (fen : string) : string :=
  let '(fen, empty_squares_count) := fen_files b rank (seq 0 8) (fen, 0%Z) in
  if Z.eqb empty_squares_count 0 then fen
  else push_str fen (i32_to_string empty_squares_count).

(** The outer loop [for rank in (0..8).rev()] with [if rank == 0 {break}]
    and [fen.push('/')]. *)
Fixpoint fen_ranks (b : Board) (ranks : list nat) (fen : string) : string :=
  match ranks with
  | [] => fen
  | rank :: rest =>
      let fen := fen_rank b rank fen in
      if Nat.eqb rank 0 then fen else fen_ranks b rest (push fen "/"%char)
  end.

Definition ranks_desc : list nat := rev (seq 0 8).

Definition turn_char (c : Color) : Ascii.ascii :=
  match c with White => "w"%char | Black => "b"%char end.

(** The text built by the rank loop: the board field of the FEN. *)
Definition board_field (b : Board) : string := fen_ranks b ranks_desc EmptyString.

Definition to_str_fen (b : Board) : string :=
  let fen := board_field b in
  let fen := push fen " "%char in
  let fen := push fen (turn_char (turn b)) in
  push_str fen " - - 0 1".

(** ** [Board::to_str] *)

Fixpoint grid_files (b : Board) (rank : nat) (files : list nat) (s : string)
    : string :=
  match files with
  | [] => s
  | file :: rest =>
      let s := match square_at b (board_index file rank) with
               | Some p => push s (to_char p)
               | None => push s "."%char
               end in
      grid_files b rank rest s
  end.

Fixpoint grid_ranks (b : Board) (ranks : list nat) (s : string) : string :=
  match ranks with
  | [] => s
  | rank :: rest =>
      grid_ranks b rest (push (grid_files b rank (seq 0 8) s) "010"%char)
  end.

(** [format!("Turn: {:?}", self.turn)]: the derived [Debug] name. *)
Definition color_debug (c : Color) : string :=
  match c with White => "White" | Black => "Black" end.

Definition to_str (b : Board) : string :=
  let s := grid_ranks b ranks_desc EmptyString in
  push_str s ("Turn: " +:+ color_debug (turn b)).

Close Scope string_scope.

(** ** [Board::random] *)

(** The draws of [rng] are inputs: [coin] for [random_bool(0.5)], [wk] for
    [random_range(0..N_SQUARES)] and [r] for [random_range(0..free_squares_n)].
    A panic (out-of-range array access, empty range) is [None]. *)

Definition KING_MOVES : list (Z * Z) :=
  [(1, 1); (1, -1); (1, 0); (0, 1); (0, -1); (-1, 1); (-1, -1); (-1, 0)]%Z.

(** [arr[i] = v] on a Rust array: panics when [i] is out of range. *)
Definition array_set {A} (l : list A) (i : nat) (v : A) : option (list A) :=
  if decide (i < length l) then Some (<[i:=v]> l) else None.

Definition board_set (b : Board) (i : nat) (v : option Piece) : option Board :=
  match decide (i < length (squares b)) with
  | left _ =>
      Some {| squares := <[i:=v]> (squares b); turn := turn b;
              squares_len := eq_trans (length_insert _ _ _) (squares_len b) |}
  | right _ => None
  end.

Definition set_turn (b : Board) (c : Color) : Board :=
  {| squares := squares b; turn := c; squares_len := squares_len b |}.

Definition white_king : Piece := mkPiece King White.
Definition black_king : Piece := mkPiece King Black.

(** The loop [for &delta in &KING_MOVES]; the [i8] sums stay in [-1, 8], so
    no wrap-around occurs. *)
Fixpoint mark_king_moves (wf wr : Z) (moves : list (Z * Z))
    (occupied_squares : list bool) (free_squares_n : Z)
    : option (list bool * Z) :=
  match moves with
  | [] => Some (occupied_squares, free_squares_n)
  | (df, dr) :: rest =>
      let curr_file := (wf + df)%Z in
      let curr_rank := (wr + dr)%Z in
      if (curr_file <? 0)%Z || (curr_rank <? 0)%Z then
        mark_king_moves wf wr rest occupied_squares free_squares_n
      else if (8 <=? curr_file)%Z || (8 <=? curr_rank)%Z then
        mark_king_moves wf wr rest occupied_squares free_squares_n
      else
        occ ← array_set occupied_squares
                (board_index (Z.to_nat curr_file) (Z.to_nat curr_rank)) true;
        mark_king_moves wf wr rest occ (free_squares_n - 1)%Z
  end.

(** [occupied_squares] and [free_squares_n] after the white king is placed. *)
Definition king_placement (white_king_pos : nat) : option (list bool * Z) :=
  let '(white_king_file, white_king_rank) := board_index_reverse white_king_pos in
  occ ← array_set (replicate N_SQUARES false) white_king_pos true;
  mark_king_moves (Z.of_nat white_king_file) (Z.of_nat white_king_rank)
    KING_MOVES occ (Z.of_nat N_SQUARES - 1)%Z.

(** The loop [for i in 0..N_SQUARES] filling [free_square_indexes]. *)
Fixpoint fill_free (occupied_squares : list bool) (is : list nat)
    (free_square_indexes : list nat) (j : nat) : option (list nat * nat) :=
  match is with
  | [] => Some (free_square_indexes, j)
  | i :: rest =>
      match occupied_squares !! i with
      | None => None
      | Some true => fill_free occupied_squares rest free_square_indexes j
      | Some false =>
          buf ← array_set free_square_indexes j i;
          fill_free occupied_squares rest buf (S j)
      end
  end.

Definition free_buffer (occupied_squares : list bool) : option (list nat * nat) :=
  fill_free occupied_squares (seq 0 N_SQUARES) (replicate (N_SQUARES - 4) 0) 0.

Definition random (coin : bool) (wk : nat) (r : Z) : option Board :=
  let board := set_turn new (if coin then White else Black) in
  board ← board_set board wk (Some white_king);
  placed ← king_placement wk;
  let '(occupied_squares, free_squares_n) := placed in
  filled ← free_buffer occupied_squares;
  let '(free_square_indexes, _) := filled in
  if (free_squares_n <=? 0)%Z then None
  else
    black_king_pos ← free_square_indexes !! Z.to_nat r;
    board_set board black_king_pos (Some black_king).

(** ** Derived notions used by the statements *)

Definition free_squares_n (wk : nat) : Z :=
  match king_placement wk with Some (_, n) => n | None => 0%Z end.

Definition occupied (wk : nat) : list bool :=
  match king_placement wk with Some (occ, _) => occ | None => [] end.

(** The exclusion set: indices marked in [occupied_squares]. *)
Definition exclusion_set (wk : nat) : list nat :=
  filter (fun i => occupied wk !! i = Some true) (seq 0 N_SQUARES).

Definition nat_dist (x y : nat) : nat := (x - y) + (y - x).

Definition chebyshev (a b : nat) : nat :=
  let '(fa, ra) := board_index_reverse a in
  let '(fb, rb) := board_index_reverse b in
  Nat.max (nat_dist fa fb) (nat_dist ra rb).

(** ** Decision procedures over all outcomes of the draws *)

Definition kings_ok (b : Board) (wk : nat) : bool :=
  match List.filter (fun i => bool_decide (square_at b i = Some black_king))
               (seq 0 N_SQUARES) with
  | [bk] =>
      bool_decide (square_at b wk = Some white_king) && negb (wk =? bk)
      && (2 <=? chebyshev wk bk)
      && forallb (fun i => (i =? wk) || (i =? bk)
                           || bool_decide (square_at b i = None))
                 (seq 0 N_SQUARES)
  | _ => false
  end.

Definition placement_ok (coin : bool) (wk : nat) (r : Z) : bool :=
  match random coin wk r with Some b => kings_ok b wk | None => false end.

Definition buffer_ok (wk : nat) : bool :=
  match king_placement wk with
  | Some (occ, n) =>
      match free_buffer occ with
      | Some (buf, j) =>
          (Z.of_nat j =? n)%Z && (j <=? N_SQUARES - 4)
          && (length buf =? N_SQUARES - 4)
          && bool_decide (take j buf =
                          filter (fun i => occ !! i = Some false) (seq 0 N_SQUARES))
      | None => false
      end
  | None => false
  end.

Definition exclusion_ok (wk : nat) : bool :=
  (4 <=? length (exclusion_set wk)) && (length (exclusion_set wk) <=? 9)
  && (free_squares_n wk =? Z.of_nat N_SQUARES - Z.of_nat (length (exclusion_set wk)))%Z
  && bool_decide (exclusion_set wk =
                  filter (fun i => chebyshev wk i <= 1) (seq 0 N_SQUARES)).

(** ** Strings: reading the FEN back *)

Open Scope string_scope.

Definition digit_value (c : ascii) : option nat :=
  let n := nat_of_ascii c in
  if ((48 <=? n) && (n <=? 57))%nat then Some (n - 48)%nat else None.

Definition is_digit (c : ascii) : bool :=
  match digit_value c with Some _ => true | None => false end.

Definition is_piece_letter (c : ascii) : bool :=
  existsb (Ascii.eqb c) ["p"; "r"; "n"; "b"; "q"; "k"; "P"; "R"; "N"; "B"; "Q"; "K"]%char.

(** Sum of the digit values plus the number of piece letters. *)
Fixpoint field_value (s : string) : nat :=
  match s with
  | EmptyString => 0
  | String c s' =>
      (match digit_value c with
       | Some d => d
       | None => if is_piece_letter c then 1 else 0
       end + field_value s')%nat
  end.

(** Every character is a digit or a piece letter. *)
Fixpoint chars_ok (s : string) : bool :=
  match s with
  | EmptyString => true
  | String c s' => (is_digit c || is_piece_letter c) && chars_ok s'
  end.

Fixpoint has_char (x : ascii) (s : string) : bool :=
  match s with
  | EmptyString => false
  | String c s' => Ascii.eqb c x || has_char x s'
  end.

Fixpoint no_adj_digits (s : string) : bool :=
  match s with
  | String c ((String d _) as t) => negb (is_digit c && is_digit d) && no_adj_digits t
  | _ => true
  end.

(** [str.split(sep)]. *)
Fixpoint split_go (sep : ascii) (s cur : string) : list string :=
  match s with
  | EmptyString => [cur]
  | String c s' =>
      if Ascii.eqb c sep then cur :: split_go sep s' EmptyString
      else split_go sep s' (push cur c)
  end.

Definition split_on (sep : ascii) (s : string) : list string :=
  split_go sep s EmptyString.

(** Run-length encoding of one rank, written recursively: the reading of
    the FEN the claims describe, compared below with the loop of
    [to_str_fen]. *)
Definition count_str (cnt : nat) : string :=
  if (cnt =? 0)%nat then EmptyString else i32_to_string (Z.of_nat cnt).

Fixpoint rle (cnt : nat) (row : list (option Piece)) : string :=
  match row with
  | [] => count_str cnt
  | None :: rest => rle (S cnt) rest
  | Some p :: rest => count_str cnt +:+ String (to_char p) (rle 0 rest)
  end.

Definition rank_squares (b : Board) (rank : nat) : list (option Piece) :=
  map (fun file => square_at b (board_index file rank)) (seq 0 8).

Fixpoint join_slash (l : list string) : string :=
  match l with
  | [] => EmptyString
  | [x] => x
  | x :: xs => x +:+ String "/" (join_slash xs)
  end.

Definition grid_char (o : option Piece) : ascii :=
  match o with Some p => to_char p | None => "." end.

Definition grid_line (b : Board) (rank : nat) : string :=
  String.string_of_list_ascii (map grid_char (rank_squares b rank)) +:+ String "010" "".

Close Scope string_scope.

(** [to_str_fen] state after the file loop, with the final count flushed. *)
Definition flush (st : string * Z) : string :=
  let '(fen, empty_squares_count) := st in
  if Z.eqb empty_squares_count 0 then fen
  else push_str fen (i32_to_string empty_squares_count).

Open Scope string_scope.

Fixpoint concat_all (l : list string) : string :=
  match l with [] => EmptyString | x :: xs => x +:+ concat_all xs end.

Close Scope string_scope.

(** Every [(file, rank)] pair of the board, mapped by [board_index]. *)
Definition all_board_indices : list nat :=
  map (fun '(file, rank) => board_index file rank) (list_prod (seq 0 8) (seq 0 8)).

(** The squares of the board with only a White King on square 0 and a Black
    King on square 63. *)
Definition corner_kings_squares : list (option Piece) :=
  Some white_king :: repeat None 62 ++ [Some black_king].

Definition corner_kings_board (t : Color) : Board :=
  {| squares := corner_kings_squares; turn := t; squares_len := eq_refl |}.

(** ** Reading the output back

    A FEN reader and a few observers, used to state what the serialisers
    and [random_fen] guarantee to a consumer of their text. *)

Definition all_pieces : list Piece :=
  [mkPiece Pawn White; mkPiece Rook White; mkPiece Knight White;
   mkPiece Bishop White; mkPiece Queen White; mkPiece King White;
   mkPiece Pawn Black; mkPiece Rook Black; mkPiece Knight Black;
   mkPiece Bishop Black; mkPiece Queen Black; mkPiece King Black].

Definition from_char (c : ascii) : option Piece :=
  List.find (fun p => Ascii.eqb (to_char p) c) all_pieces.

(** One rank of a FEN board field: a digit [d] is [d] empty squares. *)
Fixpoint decode_rank (s : string) : list (option Piece) :=
  match s with
  | EmptyString => []
  | String c s' =>
      match digit_value c with
      | Some d => repeat None d ++ decode_rank s'
      | None =>
          match from_char c with
          | Some p => Some p :: decode_rank s'
          | None => decode_rank s'
          end
      end
  end.

(** Ranks are written from rank 7 down; squares are stored from rank 0. *)
Definition decode_board_field (s : string) : list (option Piece) :=
  List.concat (rev (map decode_rank (split_on "/"%char s))).

Fixpoint before_space (s : string) : string :=
  match s with
  | EmptyString => EmptyString
  | String c s' => if Ascii.eqb c " "%char then EmptyString else String c (before_space s')
  end.

Fixpoint after_space (s : string) : string :=
  match s with
  | EmptyString => EmptyString
  | String c s' => if Ascii.eqb c " "%char then s' else after_space s'
  end.

Definition color_of_char (c : ascii) : option Color :=
  if Ascii.eqb c "w"%char then Some White
  else if Ascii.eqb c "b"%char then Some Black else None.

Definition fen_turn (s : string) : option Color :=
  match after_space s with
  | String c _ => color_of_char c
  | EmptyString => None
  end.

Definition parse_fen (s : string) : list (option Piece) * option Color :=
  (decode_board_field (before_space s), fen_turn s).

(** The grid rendering recomputed from a FEN: digits expanded to dots. *)
Definition grid_of_fen (s : string) : string :=
  (concat_all
     (map (fun f => String.string_of_list_ascii (map grid_char (decode_rank f))
                    +:+ String "010" EmptyString)
          (split_on "/"%char (before_space s)))
   +:+ ("Turn: " +:+ match fen_turn s with
                     | Some c => color_debug c
                     | None => EmptyString
                     end))%string.

(** [random_fen], the public entry point, with the draws as inputs. *)
Definition random_fen (coin : bool) (wk : nat) (r : Z) : option string :=
  option_map to_str_fen (random coin wk r).

Definition black_king_squares (b : Board) : list nat :=
  List.filter (fun i => bool_decide (square_at b i = Some black_king)) (seq 0 N_SQUARES).

(** * Proofs *)

Lemma forallb_seq_at (f : nat -> bool) (m k : nat) :
  forallb f (seq 0 m) = true -> k < m -> f k = true.
Proof.
  intros H Hk. apply forallb_forall with (x := k) in H; [done|].
  apply in_seq. lia.
Qed.

Lemma placements_ok_for_true (coin : bool) :
  forallb (fun wk =>
    forallb (fun n =>
      implb (Z.of_nat n <? free_squares_n wk)%Z
            (placement_ok coin wk (Z.of_nat n)))
      (seq 0 N_SQUARES))
    (seq 0 N_SQUARES) = true.
Proof. destruct coin; vm_compute; reflexivity. Qed.

Lemma buffer_ok_all : forallb buffer_ok (seq 0 N_SQUARES) = true.
Proof. vm_compute. reflexivity. Qed.

Lemma exclusion_ok_all : forallb exclusion_ok (seq 0 N_SQUARES) = true.
Proof. vm_compute. reflexivity. Qed.

Lemma free_squares_n_range_all :
  forallb (fun wk => (0 <? free_squares_n wk)%Z && (free_squares_n wk <=? 60)%Z)
          (seq 0 N_SQUARES) = true.
Proof. vm_compute. reflexivity. Qed.

Lemma free_squares_n_range (wk : nat) :
  wk < N_SQUARES -> (0 < free_squares_n wk <= 60)%Z.
Proof.
  intros Hwk. pose proof (forallb_seq_at _ _ _ free_squares_n_range_all Hwk) as H.
  apply andb_true_iff in H as [H1 H2]. apply Z.ltb_lt in H1. apply Z.leb_le in H2. lia.
Qed.

Lemma square_at_out (b : Board) (i : nat) :
  N_SQUARES <= i -> square_at b i = None.
Proof.
  intros Hi. unfold square_at. apply nth_overflow. rewrite squares_len. done.
Qed.

Lemma kings_ok_spec (b : Board) (wk : nat) :
  kings_ok b wk = true ->
  exists bk,
    square_at b wk = Some white_king /\ square_at b bk = Some black_king /\
    bk < N_SQUARES /\ wk <> bk /\ 2 <= chebyshev wk bk /\
    (forall i, i <> wk -> i <> bk -> square_at b i = None).
Proof.
  unfold kings_ok.
  destruct (List.filter _ (seq 0 N_SQUARES)) as [|bk [|? ?]] eqn:Hf; try discriminate.
  intros H. apply andb_true_iff in H as [H Hall].
  apply andb_true_iff in H as [H Hch]. apply andb_true_iff in H as [Hw Hne].
  assert (Hin : In bk (List.filter (fun i => bool_decide (square_at b i = Some black_king))
                              (seq 0 N_SQUARES))) by (rewrite Hf; left; done).
  apply filter_In in Hin as [Hin Hbk]. apply in_seq in Hin.
  exists bk. repeat split.
  - by apply bool_decide_eq_true in Hw.
  - by apply bool_decide_eq_true in Hbk.
  - lia.
  - apply negb_true_iff, Nat.eqb_neq in Hne. done.
  - by apply Nat.leb_le.
  - intros i Hi1 Hi2. destruct (decide (i < N_SQUARES)) as [Hlt|Hge].
    + eapply forallb_seq_at in Hall; [|exact Hlt].
      apply Nat.eqb_neq in Hi1, Hi2. rewrite Hi1, Hi2 in Hall.
      by apply bool_decide_eq_true in Hall.
    + apply square_at_out. lia.
Qed.

Lemma placement_ok_at (coin : bool) (wk : nat) (r : Z) :
  wk < N_SQUARES -> (0 <= r < free_squares_n wk)%Z ->
  placement_ok coin wk r = true.
Proof.
  intros Hwk Hr. pose proof (free_squares_n_range wk Hwk) as Hfs.
  pose proof (forallb_seq_at _ _ _ (placements_ok_for_true coin) Hwk) as Hc.
  assert (Hk : Z.to_nat r < N_SQUARES) by (unfold N_SQUARES; lia).
  pose proof (forallb_seq_at _ _ _ Hc Hk) as Hn. cbv beta in Hn.
  rewrite (Z2Nat.id r (proj1 Hr)) in Hn.
  rewrite (proj2 (Z.ltb_lt r (free_squares_n wk)) (proj2 Hr)) in Hn.
  exact Hn.
Qed.

Lemma buffer_ok_spec (wk : nat) :
  buffer_ok wk = true ->
  exists occ n buf j,
    king_placement wk = Some (occ, n) /\ free_buffer occ = Some (buf, j) /\
    Z.of_nat j = n /\ j <= N_SQUARES - 4 /\ length buf = N_SQUARES - 4 /\
    take j buf = filter (fun i => occ !! i = Some false) (seq 0 N_SQUARES).
Proof.
  unfold buffer_ok.
  destruct (king_placement wk) as [[occ n]|] eqn:Ek; [|discriminate].
  destruct (free_buffer occ) as [[buf j]|] eqn:Ef; [|discriminate].
  intros H. apply andb_true_iff in H as [H Htake].
  apply andb_true_iff in H as [H Hlen]. apply andb_true_iff in H as [Hj Hle].
  exists occ, n, buf, j. do 2 (split; [done|]). repeat split.
  - by apply Z.eqb_eq.
  - by apply Nat.leb_le.
  - by apply Nat.eqb_eq.
  - by apply bool_decide_eq_true in Htake.
Qed.

Lemma exclusion_ok_spec (wk : nat) :
  exclusion_ok wk = true ->
  4 <= length (exclusion_set wk) <= 9 /\
  free_squares_n wk = (Z.of_nat N_SQUARES - Z.of_nat (length (exclusion_set wk)))%Z /\
  exclusion_set wk = filter (fun i => chebyshev wk i <= 1) (seq 0 N_SQUARES).
Proof.
  unfold exclusion_ok. intros H.
  apply andb_true_iff in H as [H Hset]. apply andb_true_iff in H as [H Hn].
  apply andb_true_iff in H as [H4 H9].
  repeat split.
  - by apply Nat.leb_le.
  - by apply Nat.leb_le.
  - by apply Z.eqb_eq.
  - by apply bool_decide_eq_true in Hset.
Qed.

(** ** C1 *)

(** C1: for every outcome of the draws ([coin], [wk < 64] and
    [0 <= r < free_squares_n]), [Board::random] returns a board (no panic)
    with the White King on [wk] and the Black King on a square [bk <> wk]
    whose Chebyshev distance to [wk] is at least 2. *)
Theorem random_kings_distance (coin : bool) (wk : nat) (r : Z)
  (Hwk : wk < N_SQUARES) (Hr : (0 <= r < free_squares_n wk)%Z) :
  exists b bk,
    random coin wk r = Some b /\
    square_at b wk = Some white_king /\ square_at b bk = Some black_king /\
    bk < N_SQUARES /\ wk <> bk /\ 2 <= chebyshev wk bk.
Proof.
  pose proof (placement_ok_at coin wk r Hwk Hr) as H. unfold placement_ok in H.
  destruct (random coin wk r) as [b|] eqn:Hb; [|discriminate].
  apply kings_ok_spec in H as (bk & Hw & Hbk & Hlt & Hne & Hch & _).
  exists b, bk. done.
Qed.

Lemma random_kings_distance_witness :
  (27 < N_SQUARES /\ (0 <= 10 < free_squares_n 27)%Z) /\
  exists b bk,
    random false 27 10 = Some b /\
    square_at b 27 = Some white_king /\ square_at b bk = Some black_king /\
    bk < N_SQUARES /\ 27 <> bk /\ 2 <= chebyshev 27 bk.
Proof.
  assert (E : free_squares_n 27 = 55%Z) by reflexivity.
  split; [unfold N_SQUARES; rewrite E; lia|].
  apply (random_kings_distance false 27 10); unfold N_SQUARES; rewrite ?E; lia.
Defined.

(** ** C2 *)

(** C2: for every outcome of the draws, the board built by [Board::random]
    holds the White King on [wk], the Black King on a different square [bk],
    and [None] on every other square: exactly one king of each colour and
    no other piece. *)
Theorem random_only_two_kings (coin : bool) (wk : nat) (r : Z)
  (Hwk : wk < N_SQUARES) (Hr : (0 <= r < free_squares_n wk)%Z) :
  exists b bk,
    random coin wk r = Some b /\
    square_at b wk = Some white_king /\ square_at b bk = Some black_king /\
    wk <> bk /\
    (forall i, i <> wk -> i <> bk -> square_at b i = None).
Proof.
  pose proof (placement_ok_at coin wk r Hwk Hr) as H. unfold placement_ok in H.
  destruct (random coin wk r) as [b|] eqn:Hb; [|discriminate].
  apply kings_ok_spec in H as (bk & Hw & Hbk & Hlt & Hne & Hch & Hrest).
  exists b, bk. done.
Qed.

Lemma random_only_two_kings_witness :
  (0 < N_SQUARES /\ (0 <= 59 < free_squares_n 0)%Z) /\
  exists b bk,
    random true 0 59 = Some b /\
    square_at b 0 = Some white_king /\ square_at b bk = Some black_king /\
    0 <> bk /\
    (forall i, i <> 0 -> i <> bk -> square_at b i = None).
Proof.
  assert (E : free_squares_n 0 = 60%Z) by reflexivity.
  split; [unfold N_SQUARES; rewrite E; lia|].
  apply (random_only_two_kings true 0 59); unfold N_SQUARES; rewrite ?E; lia.
Defined.

(** ** C5 *)

(** C5: for every [wk < 64], the fill loop of [Board::random] does not
    panic, the count [j] of entries it writes equals [free_squares_n], at
    most 60 (the buffer length) entries are written, the first [j] entries
    are the free squares in ascending order, and every draw
    [0 <= r < free_squares_n] reads one of these written entries. *)
Theorem free_buffer_bound_exact (wk : nat) (Hwk : wk < N_SQUARES) :
  exists occ n buf j,
    king_placement wk = Some (occ, n) /\ free_buffer occ = Some (buf, j) /\
    Z.of_nat j = n /\ j <= N_SQUARES - 4 /\ length buf = N_SQUARES - 4 /\
    take j buf = filter (fun i => occ !! i = Some false) (seq 0 N_SQUARES) /\
    (forall r, (0 <= r < n)%Z ->
       Z.to_nat r < j /\
       buf !! Z.to_nat r =
         filter (fun i => occ !! i = Some false) (seq 0 N_SQUARES) !! Z.to_nat r).
Proof.
  pose proof (forallb_seq_at _ _ _ buffer_ok_all Hwk) as H.
  apply buffer_ok_spec in H as (occ & n & buf & j & Hk & Hf & Hj & Hle & Hlen & Ht).
  exists occ, n, buf, j. do 6 (split; [done|]).
  intros r Hr. assert (Hrj : Z.to_nat r < j) by lia.
  split; [done|]. rewrite <- Ht, lookup_take_lt by done. done.
Qed.

Lemma free_buffer_bound_exact_witness :
  9 < N_SQUARES /\
  exists occ n buf j,
    king_placement 9 = Some (occ, n) /\ free_buffer occ = Some (buf, j) /\
    Z.of_nat j = n /\ j <= N_SQUARES - 4 /\ length buf = N_SQUARES - 4 /\
    take j buf = filter (fun i => occ !! i = Some false) (seq 0 N_SQUARES) /\
    (forall r, (0 <= r < n)%Z ->
       Z.to_nat r < j /\
       buf !! Z.to_nat r =
         filter (fun i => occ !! i = Some false) (seq 0 N_SQUARES) !! Z.to_nat r).
Proof.
  split; [unfold N_SQUARES; lia|].
  apply (free_buffer_bound_exact 9). unfold N_SQUARES; lia.
Defined.

(** ** C8 *)

(** C8: the exclusion set of the white king (the squares marked in
    [occupied_squares]) is [{0,1,8,9}] for [wk = 0] and has 9 members for
    [wk = 27]; for every [wk < 64] it has between 4 and 9 members, it is
    exactly the set of squares at Chebyshev distance at most 1 from [wk]
    (no wrap-around), and [free_squares_n = 64 - |exclusion set|]. *)
Theorem exclusion_set_size (wk : nat) (Hwk : wk < N_SQUARES) :
  exclusion_set 0 = [0; 1; 8; 9] /\ length (exclusion_set 27) = 9 /\
  4 <= length (exclusion_set wk) <= 9 /\
  free_squares_n wk = (Z.of_nat N_SQUARES - Z.of_nat (length (exclusion_set wk)))%Z /\
  exclusion_set wk = filter (fun i => chebyshev wk i <= 1) (seq 0 N_SQUARES).
Proof.
  split; [vm_compute; reflexivity|]. split; [vm_compute; reflexivity|].
  apply exclusion_ok_spec. exact (forallb_seq_at _ _ _ exclusion_ok_all Hwk).
Qed.

Lemma exclusion_set_size_witness :
  63 < N_SQUARES /\
  exclusion_set 0 = [0; 1; 8; 9] /\ length (exclusion_set 27) = 9 /\
  4 <= length (exclusion_set 63) <= 9 /\
  free_squares_n 63 = (Z.of_nat N_SQUARES - Z.of_nat (length (exclusion_set 63)))%Z /\
  exclusion_set 63 = filter (fun i => chebyshev 63 i <= 1) (seq 0 N_SQUARES).
Proof.
  split; [unfold N_SQUARES; lia|].
  apply (exclusion_set_size 63). unfold N_SQUARES; lia.
Defined.


Lemma sapp_cons (a : ascii) (s t : string) : String a s +:+ t = String a (s +:+ t).
Proof. reflexivity. Qed.

Lemma sapp_nil_l (s : string) : EmptyString +:+ s = s.
Proof. reflexivity. Qed.

Lemma sapp_nil_r (s : string) : s +:+ EmptyString = s.
Proof. induction s as [|a s IH]; [done|]. rewrite sapp_cons, IH. done. Qed.

Lemma sapp_assoc (s t u : string) : s +:+ (t +:+ u) = (s +:+ t) +:+ u.
Proof.
  induction s as [|a s IH]; [done|]. rewrite !sapp_cons, IH. done.
Qed.

Lemma field_value_app (s t : string) :
  field_value (s +:+ t) = (field_value s + field_value t)%nat.
Proof. induction s as [|a s IH]; [done|]. rewrite sapp_cons. simpl. lia. Qed.

Lemma chars_ok_app (s t : string) : chars_ok (s +:+ t) = chars_ok s && chars_ok t.
Proof.
  induction s as [|a s IH]; [done|]. rewrite sapp_cons. simpl. rewrite IH.
  by rewrite andb_assoc.
Qed.

Lemma has_char_app (x : ascii) (s t : string) :
  has_char x (s +:+ t) = has_char x s || has_char x t.
Proof.
  induction s as [|a s IH]; [done|]. rewrite sapp_cons. simpl. rewrite IH.
  by rewrite orb_assoc.
Qed.

Lemma to_char_letter (p : Piece) :
  is_piece_letter (to_char p) = true /\ digit_value (to_char p) = None /\
  is_digit (to_char p) = false.
Proof. destruct p as [[] []]; vm_compute; auto. Qed.

Lemma count_str_cases (cnt : nat) :
  (cnt <= 9)%nat ->
  (cnt = 0%nat /\ count_str cnt = EmptyString) \/
  exists d, count_str cnt = String d EmptyString /\ digit_value d = Some cnt.
Proof.
  intros H.
  do 10 (destruct cnt as [|cnt];
         [first [left; split; reflexivity | right; eexists; split; reflexivity]|]).
  lia.
Qed.

Lemma push_app (s t : string) (c : ascii) : push s c +:+ t = s +:+ String c t.
Proof. unfold push. rewrite <- sapp_assoc. reflexivity. Qed.

Lemma no_adj_letter (c : ascii) (s : string) :
  is_digit c = false -> no_adj_digits (String c s) = no_adj_digits s.
Proof. intros H. destruct s as [|d s]; [done|]. simpl. by rewrite H. Qed.

Lemma no_adj_digit_letter (d c : ascii) (s : string) :
  is_digit c = false ->
  no_adj_digits (String d (String c s)) = no_adj_digits (String c s).
Proof. intros H. simpl. by rewrite H, andb_false_r. Qed.

Lemma rle_props (row : list (option Piece)) (cnt : nat) :
  (cnt + length row <= 9)%nat ->
  field_value (rle cnt row) = (cnt + length row)%nat /\
  chars_ok (rle cnt row) = true /\ no_adj_digits (rle cnt row) = true.
Proof.
  revert cnt. induction row as [|[p|] rest IH]; intros cnt Hlen; simpl in Hlen.
  - change (rle cnt []) with (count_str cnt).
    destruct (count_str_cases cnt ltac:(lia)) as [[-> ->]|(d & -> & Hd)]; [done|].
    simpl. rewrite Hd. unfold is_digit. rewrite Hd. split; [lia|done].
  - destruct (to_char_letter p) as (Hl & Hdv & Hdg).
    destruct (IH 0%nat) as (Hv & Hok & Hadj); [lia|].
    change (rle cnt (Some p :: rest))
      with (count_str cnt +:+ String (to_char p) (rle 0 rest)).
    change (length (Some p :: rest)) with (S (length rest)).
    destruct (count_str_cases cnt ltac:(lia)) as [[-> ->]|(d & -> & Hd)].
    + rewrite sapp_nil_l, no_adj_letter, Hadj by done.
      cbn [field_value chars_ok]. rewrite Hdv, Hl, Hok, Hv, orb_true_r.
      split; [lia|done].
    + rewrite sapp_cons, sapp_nil_l, no_adj_digit_letter, no_adj_letter, Hadj by done.
      cbn [field_value chars_ok]. rewrite Hd, Hdv, Hl, Hok, Hv.
      unfold is_digit at 1. rewrite Hd, orb_true_r. split; [lia|done].
  - change (rle cnt (None :: rest)) with (rle (S cnt) rest).
    destruct (IH (S cnt)) as (Hv & Hok & Hadj); [lia|].
    simpl. split; [lia|done].
Qed.

Lemma fen_files_rle (b : Board) (rank : nat) (files : list nat) (fen : string)
    (cnt : nat) :
  flush (fen_files b rank files (fen, Z.of_nat cnt)) =
  fen +:+ rle cnt (map (fun file => square_at b (board_index file rank)) files).
Proof.
  assert (Hflush : forall f c,
            (if Z.eqb (Z.of_nat c) 0 then f else push_str f (i32_to_string (Z.of_nat c)))
            = f +:+ count_str c).
  { intros f [|c]; simpl; [by rewrite sapp_nil_r|done]. }
  revert fen cnt. induction files as [|file rest IH]; intros fen cnt.
  - apply Hflush.
  - simpl. destruct (square_at b (board_index file rank)) as [p|].
    + change 0%Z with (Z.of_nat 0). rewrite IH, Hflush, push_app.
      by rewrite sapp_assoc.
    + replace (Z.of_nat cnt + 1)%Z with (Z.of_nat (S cnt)) by lia. apply IH.
Qed.

Lemma fen_rank_rle (b : Board) (rank : nat) (fen : string) :
  fen_rank b rank fen = fen +:+ rle 0 (rank_squares b rank).
Proof.
  unfold rank_squares. rewrite <- fen_files_rle. unfold fen_rank, flush.
  change (0%Z) with (Z.of_nat 0). by destruct (fen_files _ _ _ _).
Qed.

Lemma rank_fen_props (b : Board) (rank : nat) :
  field_value (rle 0 (rank_squares b rank)) = 8%nat /\
  chars_ok (rle 0 (rank_squares b rank)) = true /\
  no_adj_digits (rle 0 (rank_squares b rank)) = true.
Proof.
  unfold rank_squares. apply rle_props. rewrite length_map, length_seq. lia.
Qed.

Lemma join_slash_cons (x : string) (l : list string) :
  l <> [] -> join_slash (x :: l) = x +:+ String "/" (join_slash l).
Proof. destruct l; [done|reflexivity]. Qed.

Lemma fen_ranks_cons (b : Board) (rank : nat) (rest : list nat) (fen : string) :
  fen_ranks b (rank :: rest) fen =
  if Nat.eqb rank 0 then fen_rank b rank fen
  else fen_ranks b rest (push (fen_rank b rank fen) "/"%char).
Proof. reflexivity. Qed.

Lemma fen_ranks_join (b : Board) (rs : list nat) (fen : string) :
  Forall (fun r => r <> 0%nat) rs ->
  fen_ranks b (rs ++ [0%nat]) fen =
  fen +:+ join_slash (map (fun r => rle 0 (rank_squares b r)) (rs ++ [0%nat])).
Proof.
  revert fen. induction rs as [|r rs IH]; intros fen Hrs.
  - cbn [app map join_slash fen_ranks Nat.eqb]. apply fen_rank_rle.
  - inversion Hrs as [|? ? Hr Hrs']; subst.
    cbn [app map]. rewrite fen_ranks_cons.
    apply Nat.eqb_neq in Hr as Hr'. rewrite Hr'.
    rewrite IH by done. rewrite join_slash_cons.
    2: { destruct rs; discriminate. }
    rewrite fen_rank_rle, push_app. by rewrite sapp_assoc.
Qed.

Lemma board_field_join (b : Board) :
  board_field b =
  join_slash (map (fun r => rle 0 (rank_squares b r)) ranks_desc).
Proof.
  unfold board_field. change ranks_desc with ([7; 6; 5; 4; 3; 2; 1] ++ [0])%nat.
  rewrite fen_ranks_join; [done|]. repeat (constructor; [lia|]). constructor.
Qed.

Lemma chars_ok_no_char (x : ascii) (s : string) :
  is_digit x = false -> is_piece_letter x = false ->
  chars_ok s = true -> has_char x s = false.
Proof.
  intros Hd Hp. induction s as [|c s IH]; [done|]. simpl.
  intros [Hc Hs]%andb_true_iff. rewrite IH by done.
  destruct (Ascii.eqb_spec c x); [subst; by rewrite Hd, Hp in Hc|done].
Qed.

Lemma split_go_no_sep (sep : ascii) (a t cur : string) :
  has_char sep a = false -> split_go sep (a +:+ t) cur = split_go sep t (cur +:+ a).
Proof.
  revert cur. induction a as [|c a IH]; intros cur Ha.
  - by rewrite sapp_nil_l, sapp_nil_r.
  - simpl in Ha. apply orb_false_iff in Ha as [Hc Ha].
    rewrite sapp_cons. simpl. rewrite Hc, IH by done. by rewrite push_app.
Qed.

Lemma split_join (sep : ascii) (l : list string) :
  sep = "/"%char -> l <> [] -> Forall (fun f => has_char sep f = false) l ->
  split_on sep (join_slash l) = l.
Proof.
  intros -> Hne Hl. unfold split_on. induction l as [|x l IH]; [done|].
  inversion Hl as [|? ? Hx Hl']; subst. destruct l as [|y l].
  - cbn [join_slash]. pose proof (split_go_no_sep "/" x EmptyString EmptyString Hx) as E.
    rewrite sapp_nil_r in E. rewrite E. done.
  - rewrite join_slash_cons by done. rewrite split_go_no_sep by done.
    cbn [split_go]. rewrite Ascii.eqb_refl, sapp_nil_l, IH by done. done.
Qed.

Lemma has_char_join (x : ascii) (l : list string) :
  x <> "/"%char -> Forall (fun f => has_char x f = false) l ->
  has_char x (join_slash l) = false.
Proof.
  intros Hx Hl. induction Hl as [|f l Hf Hl IH]; [done|].
  destruct l as [|g l]; [done|].
  rewrite join_slash_cons, has_char_app by done. cbn [has_char].
  rewrite Hf, IH. destruct (Ascii.eqb_spec "/" x); [congruence|done].
Qed.

Lemma to_str_fen_shape (b : Board) :
  to_str_fen b =
  board_field b +:+ String " " (String (turn_char (turn b)) " - - 0 1").
Proof. unfold to_str_fen, push_str. rewrite !push_app. done. Qed.

Lemma board_field_ranks_ok (b : Board) :
  Forall (fun f => field_value f = 8%nat /\ no_adj_digits f = true /\ chars_ok f = true)
         (map (fun r => rle 0 (rank_squares b r)) ranks_desc).
Proof.
  apply List.Forall_forall. intros f Hf. apply in_map_iff in Hf as (r & <- & _).
  destruct (rank_fen_props b r) as (? & ? & ?). done.
Qed.

Lemma board_field_ranks_no (b : Board) (x : ascii) :
  is_digit x = false -> is_piece_letter x = false ->
  Forall (fun f => has_char x f = false)
         (map (fun r => rle 0 (rank_squares b r)) ranks_desc).
Proof.
  intros Hd Hp. apply List.Forall_forall. intros f Hf. apply in_map_iff in Hf as (r & <- & _).
  apply chars_ok_no_char; [done|done|]. apply rank_fen_props.
Qed.

(** ** C3 *)

(** C3, as stated: the last '/'-separated field of the whole string also
    carries the suffix; for the empty board it is ["8 w - - 0 1"], whose
    digit values sum to 9, so not every field sums to 8. *)
Lemma fen_fields_whole_string_counterexample :
  ~ (length (split_on "/" (to_str_fen new)) = 8%nat /\
     Forall (fun f => field_value f = 8%nat) (split_on "/" (to_str_fen new))).
Proof.
  intros [_ H].
  apply List.Forall_forall with (x := "8 w - - 0 1"%string) in H.
  - vm_compute in H. discriminate.
  - vm_compute. repeat (first [left; reflexivity | right]).
Qed.

(** C3, amended: the board field of [to_str_fen] (the text before the
    space) splits on '/' into exactly 8 fields, the run-length encodings
    of ranks 7 down to 0 (counts flushed before a piece letter or at the
    end of the rank); each field has digit values plus piece letters
    summing to 8, no two adjacent digits and only digits and piece
    letters.  The whole string is this field followed by the turn and
    suffix. *)
Theorem fen_board_field_fields (b : Board) :
  to_str_fen b =
    board_field b +:+ String " " (String (turn_char (turn b)) " - - 0 1") /\
  split_on "/" (board_field b) =
    map (fun r => rle 0 (rank_squares b r)) [7; 6; 5; 4; 3; 2; 1; 0]%nat /\
  length (split_on "/" (board_field b)) = 8%nat /\
  Forall (fun f => field_value f = 8%nat /\ no_adj_digits f = true /\ chars_ok f = true)
         (split_on "/" (board_field b)).
Proof.
  assert (Hsplit : split_on "/" (board_field b) =
                   map (fun r => rle 0 (rank_squares b r)) ranks_desc).
  { rewrite board_field_join. apply split_join; [done|done|].
    apply board_field_ranks_no; vm_compute; reflexivity. }
  split; [apply to_str_fen_shape|]. rewrite Hsplit.
  split; [reflexivity|]. split; [reflexivity|]. apply board_field_ranks_ok.
Qed.

(** ** C4 *)

(** C4: [to_str_fen] returns the board field (which holds no space),
    a space, 'w' for White or 'b' for Black, and the literal " - - 0 1";
    so every FEN ends with " - - 0 1". *)
Theorem fen_turn_and_suffix (b : Board) :
  to_str_fen b =
    board_field b +:+
    String " " (String (match turn b with White => "w" | Black => "b" end)%char
                       " - - 0 1") /\
  has_char " " (board_field b) = false /\
  exists pre, to_str_fen b = pre +:+ " - - 0 1".
Proof.
  split; [apply to_str_fen_shape|]. split.
  - rewrite board_field_join. apply has_char_join; [done|].
    apply board_field_ranks_no; vm_compute; reflexivity.
  - exists (push (push (board_field b) " "%char) (turn_char (turn b))). reflexivity.
Qed.

(** ** C6 *)

Lemma board_index_reverse_index (file rank : nat) :
  file < 8 -> rank < 8 -> board_index_reverse (board_index file rank) = (file, rank).
Proof.
  intros Hf Hr. unfold board_index_reverse, board_index. f_equal.
  - symmetry. apply (Nat.mod_unique _ _ rank); lia.
  - symmetry. apply (Nat.div_unique _ _ _ file); lia.
Qed.

Lemma all_board_indices_facts :
  NoDup all_board_indices /\ length all_board_indices = N_SQUARES /\
  forallb (fun x => x <? N_SQUARES) all_board_indices = true /\
  forallb (fun x => existsb (Nat.eqb x) all_board_indices) (seq 0 N_SQUARES) = true.
Proof.
  split; [apply (bool_decide_unpack (NoDup all_board_indices)); vm_compute; exact I|].
  split; [reflexivity|]. split; vm_compute; reflexivity.
Qed.

(** C6: on valid coordinates [board_index file rank = 8 * rank + file] and
    [board_index_reverse] inverts it; the 64 pairs map to 64 distinct indices
    that are exactly [0, 64); [board_index_reverse sq = (sq mod 8, sq / 8)]
    for [sq < 64]. *)
Theorem board_index_bijection (file rank sq : nat)
  (Hf : file < 8) (Hr : rank < 8) (Hsq : sq < N_SQUARES) :
  board_index file rank = 8 * rank + file /\
  board_index_reverse (board_index file rank) = (file, rank) /\
  NoDup all_board_indices /\ length all_board_indices = N_SQUARES /\
  (forall x, In x all_board_indices <-> x < N_SQUARES) /\
  board_index_reverse sq = (sq mod 8, sq / 8).
Proof.
  destruct all_board_indices_facts as (Hnd & Hlen & Hlt & Hcov).
  split; [reflexivity|]. split; [by apply board_index_reverse_index|].
  split; [done|]. split; [done|]. split; [|reflexivity].
  intros x. split.
  - intros Hx. apply forallb_forall with (x := x) in Hlt; [|done].
    by apply Nat.ltb_lt.
  - intros Hx. eapply forallb_seq_at in Hcov; [|exact Hx].
    apply existsb_exists in Hcov as (y & Hy & Hxy). apply Nat.eqb_eq in Hxy.
    by subst.
Qed.

Lemma board_index_bijection_witness :
  (3 < 8 /\ 5 < 8 /\ 43 < N_SQUARES) /\
  board_index 3 5 = 8 * 5 + 3 /\
  board_index_reverse (board_index 3 5) = (3, 5) /\
  NoDup all_board_indices /\ length all_board_indices = N_SQUARES /\
  (forall x, In x all_board_indices <-> x < N_SQUARES) /\
  board_index_reverse 43 = (43 mod 8, 43 / 8).
Proof.
  split; [unfold N_SQUARES; lia|].
  apply (board_index_bijection 3 5 43); unfold N_SQUARES; lia.
Defined.

(** ** C7 *)

Lemma corner_kings_squares_rest (i : nat) :
  i <> 0 -> i <> 63 -> nth i corner_kings_squares None = None.
Proof.
  intros H0 H63. destruct (decide (i < N_SQUARES)) as [Hlt|Hge].
  - assert (Hall : forallb (fun i => (i =? 0) || (i =? 63) ||
                     bool_decide (nth i corner_kings_squares None = None))
                     (seq 0 N_SQUARES) = true) by (vm_compute; reflexivity).
    eapply forallb_seq_at in Hall; [|exact Hlt].
    apply Nat.eqb_neq in H0, H63. rewrite H0, H63 in Hall.
    by apply bool_decide_eq_true in Hall.
  - apply nth_overflow. change (length corner_kings_squares) with 64. unfold N_SQUARES in Hge. lia.
Qed.

Lemma board_field_squares (b1 b2 : Board) :
  squares b1 = squares b2 -> board_field b1 = board_field b2.
Proof.
  intros Hs. rewrite !board_field_join. unfold rank_squares, square_at. by rewrite Hs.
Qed.

(** C7: for a board whose only pieces are a White King on square 0 and a
    Black King on square 63, the board field is ["7k/8/8/8/8/8/8/K7"] and
    the FEN is that field, the turn and the fixed suffix. *)
Theorem fen_corner_kings (b : Board)
  (Hw : square_at b 0 = Some white_king) (Hb : square_at b 63 = Some black_king)
  (Hrest : forall i, i <> 0 -> i <> 63 -> square_at b i = None) :
  board_field b = "7k/8/8/8/8/8/8/K7"%string /\
  to_str_fen b =
    ("7k/8/8/8/8/8/8/K7" +:+ String " " (String (turn_char (turn b)) " - - 0 1"))%string.
Proof.
  assert (Hsq : squares b = corner_kings_squares).
  { apply nth_ext with (d := None) (d' := None).
    - rewrite squares_len. reflexivity.
    - intros i _. fold (square_at b i).
      destruct (decide (i = 0)) as [->|H0]; [by rewrite Hw|].
      destruct (decide (i = 63)) as [->|H63]; [by rewrite Hb|].
      rewrite Hrest, corner_kings_squares_rest by done. done. }
  assert (Hf : board_field b = "7k/8/8/8/8/8/8/K7"%string).
  { rewrite (board_field_squares b (corner_kings_board White)) by done.
    vm_compute. reflexivity. }
  split; [done|]. rewrite to_str_fen_shape, Hf. done.
Qed.

Lemma fen_corner_kings_witness :
  (square_at (corner_kings_board Black) 0 = Some white_king /\
   square_at (corner_kings_board Black) 63 = Some black_king /\
   (forall i, i <> 0 -> i <> 63 -> square_at (corner_kings_board Black) i = None)) /\
  board_field (corner_kings_board Black) = "7k/8/8/8/8/8/8/K7"%string /\
  to_str_fen (corner_kings_board Black) =
    ("7k/8/8/8/8/8/8/K7" +:+ String " "
       (String (turn_char (turn (corner_kings_board Black))) " - - 0 1"))%string.
Proof.
  assert (Hrest : forall i, i <> 0 -> i <> 63 ->
            square_at (corner_kings_board Black) i = None)
    by (intros i H0 H63; apply corner_kings_squares_rest; done).
  split; [split; [reflexivity|split; [reflexivity|exact Hrest]]|].
  apply (fen_corner_kings (corner_kings_board Black)); [reflexivity|reflexivity|exact Hrest].
Defined.

(** ** C9 *)

Lemma grid_files_app (b : Board) (rank : nat) (files : list nat) (s : string) :
  grid_files b rank files s =
  s +:+ String.string_of_list_ascii
          (map grid_char (map (fun file => square_at b (board_index file rank)) files)).
Proof.
  revert s. induction files as [|file rest IH]; intros s.
  - by rewrite sapp_nil_r.
  - cbn [grid_files map String.string_of_list_ascii]. rewrite IH.
    destruct (square_at b (board_index file rank)); cbn [grid_char];
      rewrite push_app; reflexivity.
Qed.

Lemma grid_ranks_app (b : Board) (ranks : list nat) (s : string) :
  grid_ranks b ranks s = s +:+ concat_all (map (grid_line b) ranks).
Proof.
  revert s. induction ranks as [|rank rest IH]; intros s.
  - by rewrite sapp_nil_r.
  - cbn [grid_ranks map concat_all]. rewrite IH, push_app, grid_files_app.
    unfold grid_line, rank_squares. rewrite <- !sapp_assoc. reflexivity.
Qed.

(** C9: [to_str] is the grid lines of ranks 7 down to 0 (per file the piece
    letter or '.', then a newline) followed by "Turn: White" or
    "Turn: Black" matching the turn; on the all-empty board it is eight
    lines of dots and "Turn: White". *)
Theorem to_str_grid (b : Board) :
  to_str b =
    (concat_all (map (grid_line b) [7; 6; 5; 4; 3; 2; 1; 0])
     +:+ ("Turn: " +:+ match turn b with White => "White" | Black => "Black" end))%string /\
  (forall rank, grid_line b rank =
     (String.string_of_list_ascii
        (map (fun file => match square_at b (board_index file rank) with
                          | Some p => to_char p | None => "."%char end) (seq 0 8))
      +:+ String "010" "")%string) /\
  to_str new =
    (concat_all (repeat ("........" +:+ String "010" "") 8) +:+ "Turn: White")%string.
Proof.
  split; [|split; [intros rank; unfold grid_line, rank_squares; by rewrite map_map|]].
  - unfold to_str, push_str. rewrite grid_ranks_app, sapp_nil_l. reflexivity.
  - vm_compute. reflexivity.
Qed.

(** ** C10 *)

(** C10: the FEN of the empty board of [Board::new]. *)
Theorem fen_new_board : to_str_fen new = "8/8/8/8/8/8/8/8 w - - 0 1"%string.
Proof. vm_compute. reflexivity. Qed.

(** * Further properties of the crate *)

(** ** [Piece::to_char] *)

(** [Piece::to_char] is injective: the 12 pieces get 12 distinct letters. *)
Theorem to_char_injective (p q : Piece) : to_char p = to_char q -> p = q.
Proof.
  destruct p as [[] []], q as [[] []]; vm_compute; intros H;
    first [reflexivity | discriminate H].
Qed.

Lemma to_char_injective_witness :
  to_char (mkPiece Queen Black) = to_char (mkPiece Queen Black) /\
  mkPiece Queen Black = mkPiece Queen Black.
Proof.
  split; [reflexivity|]. apply to_char_injective. reflexivity.
Defined.

(** ** [board_index_reverse] then [board_index] *)

(** Every square [sq < 64] has coordinates in [0, 8) and [board_index]
    maps them back to [sq]. *)
Theorem board_index_of_reverse (sq : nat) (Hsq : sq < N_SQUARES) :
  fst (board_index_reverse sq) < 8 /\ snd (board_index_reverse sq) < 8 /\
  board_index (fst (board_index_reverse sq)) (snd (board_index_reverse sq)) = sq.
Proof.
  unfold board_index_reverse, board_index, N_SQUARES in *. cbn [fst snd].
  pose proof (Nat.mod_upper_bound sq 8 ltac:(lia)).
  pose proof (Nat.div_mod_eq sq 8).
  assert (sq / 8 < 8) by (apply Nat.Div0.div_lt_upper_bound; lia).
  lia.
Qed.

Lemma board_index_of_reverse_witness :
  45 < N_SQUARES /\
  fst (board_index_reverse 45) < 8 /\ snd (board_index_reverse 45) < 8 /\
  board_index (fst (board_index_reverse 45)) (snd (board_index_reverse 45)) = 45.
Proof.
  split; [unfold N_SQUARES; lia|]. apply board_index_of_reverse. unfold N_SQUARES; lia.
Defined.

(** ** Reading [to_str_fen] back *)

Lemma decode_rank_app (s t : string) :
  decode_rank (s +:+ t) = decode_rank s ++ decode_rank t.
Proof.
  induction s as [|c s IH]; [done|]. rewrite sapp_cons. cbn [decode_rank].
  destruct (digit_value c); [rewrite IH; by rewrite app_assoc|].
  destruct (from_char c); rewrite IH; done.
Qed.

Lemma from_char_to_char (p : Piece) : from_char (to_char p) = Some p.
Proof. destruct p as [[] []]; reflexivity. Qed.

Lemma repeat_S_r {A} (x : A) (n : nat) : repeat x (S n) = repeat x n ++ [x].
Proof. induction n as [|n IH]; [done|]. cbn [repeat app]. f_equal. exact IH. Qed.

Lemma decode_rle (row : list (option Piece)) (cnt : nat) :
  (cnt + length row <= 9)%nat -> decode_rank (rle cnt row) = repeat None cnt ++ row.
Proof.
  revert cnt. induction row as [|[p|] rest IH]; intros cnt Hlen; simpl in Hlen.
  - change (rle cnt []) with (count_str cnt).
    destruct (count_str_cases cnt ltac:(lia)) as [[-> ->]|(d & -> & Hd)]; [done|].
    cbn [decode_rank]. rewrite Hd. by rewrite !app_nil_r.
  - change (rle cnt (Some p :: rest))
      with (count_str cnt +:+ String (to_char p) (rle 0 rest)).
    destruct (to_char_letter p) as (_ & Hdv & _).
    rewrite decode_rank_app. cbn [decode_rank]. rewrite Hdv, from_char_to_char, IH by lia.
    destruct (count_str_cases cnt ltac:(lia)) as [[-> ->]|(d & -> & Hd)]; [done|].
    cbn [decode_rank]. rewrite Hd. by rewrite app_nil_r.
  - change (rle cnt (None :: rest)) with (rle (S cnt) rest).
    rewrite IH by lia. rewrite repeat_S_r, <- app_assoc. done.
Qed.

Lemma squares_from_ranks {A} (l : list A) (d : A) :
  length l = 64 ->
  List.concat (map (fun r => map (fun f => nth (board_index f r) l d) (seq 0 8)) (seq 0 8))
  = l.
Proof.
  intros Hl.
  do 64 (destruct l as [|? l]; [discriminate|]).
  destruct l; [reflexivity|discriminate].
Qed.

Lemma split_board_field (b : Board) :
  split_on "/"%char (board_field b) =
  map (fun r => rle 0 (rank_squares b r)) ranks_desc.
Proof.
  rewrite board_field_join. apply split_join; [done|done|].
  apply board_field_ranks_no; vm_compute; reflexivity.
Qed.

Lemma board_field_no_space (b : Board) : has_char " "%char (board_field b) = false.
Proof.
  rewrite board_field_join. apply has_char_join; [done|].
  apply board_field_ranks_no; vm_compute; reflexivity.
Qed.

Lemma decode_ranks (b : Board) :
  map decode_rank (split_on "/"%char (board_field b)) = map (rank_squares b) ranks_desc.
Proof.
  rewrite split_board_field, map_map. apply map_ext. intros r.
  rewrite decode_rle; [done|]. unfold rank_squares. rewrite length_map, length_seq. lia.
Qed.

Lemma decode_board_field_ok (b : Board) :
  decode_board_field (board_field b) = squares b.
Proof.
  unfold decode_board_field. rewrite decode_ranks.
  unfold ranks_desc. rewrite map_rev, rev_involutive.
  unfold rank_squares, square_at. apply squares_from_ranks. apply squares_len.
Qed.

Lemma before_after_space (a x : string) :
  has_char " "%char a = false ->
  before_space (a +:+ String " " x) = a /\ after_space (a +:+ String " " x) = x.
Proof.
  induction a as [|c a IH]; [done|]. cbn [has_char]. intros [Hc Ha]%orb_false_iff.
  rewrite sapp_cons. cbn [before_space after_space]. rewrite Hc.
  destruct (IH Ha) as [-> ->]. done.
Qed.

Lemma parse_to_str_fen (b : Board) :
  parse_fen (to_str_fen b) = (squares b, Some (turn b)).
Proof.
  unfold parse_fen, fen_turn. rewrite to_str_fen_shape.
  destruct (before_after_space (board_field b) (String (turn_char (turn b)) " - - 0 1")
              (board_field_no_space b)) as [-> ->].
  rewrite decode_board_field_ok. by destruct (turn b).
Qed.

(** A FEN reader recovers the board from [to_str_fen]: decoding the board
    field (digits as runs of empty squares, ranks from 7 down) gives back
    the 64 squares, and the character after the space gives back the turn. *)
Theorem parse_fen_roundtrip (b : Board) :
  parse_fen (to_str_fen b) = (squares b, Some (turn b)).
Proof. exact (parse_to_str_fen b). Qed.

(** [to_str_fen] is injective: two boards with the same FEN have the same
    squares and the same side to move. *)
Theorem to_str_fen_injective (b1 b2 : Board) :
  to_str_fen b1 = to_str_fen b2 -> squares b1 = squares b2 /\ turn b1 = turn b2.
Proof.
  intros H. apply (f_equal parse_fen) in H. rewrite !parse_to_str_fen in H.
  injection H as Hs Ht. done.
Qed.

Lemma to_str_fen_injective_witness :
  to_str_fen new = to_str_fen new /\ squares new = squares new /\ turn new = turn new.
Proof.
  split; [reflexivity|]. apply (to_str_fen_injective new new). reflexivity.
Defined.

(** ** [to_str] and [to_str_fen] agree *)

Lemma fen_turn_to_str_fen (b : Board) : fen_turn (to_str_fen b) = Some (turn b).
Proof.
  pose proof (parse_to_str_fen b) as H. unfold parse_fen in H. by injection H.
Qed.

Lemma before_space_to_str_fen (b : Board) :
  before_space (to_str_fen b) = board_field b.
Proof.
  rewrite to_str_fen_shape.
  apply (before_after_space (board_field b) _ (board_field_no_space b)).
Qed.

(** The grid of [to_str] is computable from the FEN of [to_str_fen]: expand
    each rank field's digits into that many '.', end each rank with a
    newline, and name the side to move after "Turn: ". *)
Theorem to_str_from_fen (b : Board) : to_str b = grid_of_fen (to_str_fen b).
Proof.
  unfold grid_of_fen. rewrite fen_turn_to_str_fen, before_space_to_str_fen.
  rewrite <- (map_map decode_rank
                (fun row => String.string_of_list_ascii (map grid_char row)
                            +:+ String "010" EmptyString)%string).
  rewrite decode_ranks, map_map.
  unfold to_str, push_str. rewrite grid_ranks_app, sapp_nil_l. reflexivity.
Qed.

(** ** Output lengths *)

Lemma slength_app (s t : string) :
  String.length (s +:+ t) = (String.length s + String.length t)%nat.
Proof. induction s as [|c s IH]; [done|]. rewrite sapp_cons. simpl. by rewrite IH. Qed.

Lemma slength_of_list (l : list ascii) :
  String.length (String.string_of_list_ascii l) = length l.
Proof. induction l as [|c l IH]; [done|]. simpl. by rewrite IH. Qed.

Lemma count_str_length (cnt : nat) :
  (cnt <= 9)%nat ->
  String.length (count_str cnt) = (if (cnt =? 0)%nat then 0 else 1)%nat.
Proof.
  intros H. do 10 (destruct cnt as [|cnt]; [reflexivity|]). lia.
Qed.

Lemma rle_length (row : list (option Piece)) (cnt : nat) :
  (cnt + length row <= 9)%nat ->
  (String.length (rle cnt row) <= length row + (if (cnt =? 0)%nat then 0 else 1))%nat /\
  (1 <= cnt + length row -> 1 <= String.length (rle cnt row))%nat.
Proof.
  revert cnt. induction row as [|[p|] rest IH]; intros cnt Hlen; simpl in Hlen.
  - change (rle cnt []) with (count_str cnt). rewrite count_str_length by lia.
    destruct cnt; simpl; lia.
  - change (rle cnt (Some p :: rest))
      with (count_str cnt +:+ String (to_char p) (rle 0 rest)).
    destruct (IH 0%nat ltac:(lia)) as [H1 _].
    rewrite slength_app, count_str_length by lia. cbn [String.length length].
    simpl in H1. destruct cnt; simpl; lia.
  - change (rle cnt (None :: rest)) with (rle (S cnt) rest).
    destruct (IH (S cnt) ltac:(lia)) as [H1 H2]. simpl in H1. cbn [length].
    destruct cnt; simpl; lia.
Qed.

Lemma join_slash_length_bounds (l : list string) (lo hi : nat) :
  Forall (fun f => lo <= String.length f <= hi)%nat l -> l <> [] ->
  (length l * lo + (length l - 1) <= String.length (join_slash l) <=
   length l * hi + (length l - 1))%nat.
Proof.
  intros Hl Hne. induction Hl as [|f l Hf Hl IH]; [done|].
  destruct l as [|g l]; [simpl; lia|].
  rewrite join_slash_cons, slength_app by done. cbn [String.length].
  specialize (IH ltac:(done)). cbn [length] in *. lia.
Qed.

(** Every FEN of [to_str_fen] has between 25 characters (the empty board,
    "8/8/8/8/8/8/8/8 w - - 0 1") and 81 characters (a full board). *)
Theorem to_str_fen_length (b : Board) :
  (25 <= String.length (to_str_fen b) <= 81)%nat.
Proof.
  rewrite to_str_fen_shape, slength_app. cbn [String.length].
  rewrite board_field_join.
  assert (Hb : Forall (fun f => 1 <= String.length f <= 8)%nat
                 (map (fun r => rle 0 (rank_squares b r)) ranks_desc)).
  { apply List.Forall_forall. intros f Hf. apply in_map_iff in Hf as (r & <- & _).
    assert (Hlen : length (rank_squares b r) = 8%nat)
      by (unfold rank_squares; by rewrite length_map, length_seq).
    destruct (rle_length (rank_squares b r) 0) as [H1 H2]; [lia|].
    rewrite Hlen in H1, H2.
    replace (8 + (if (0 =? 0)%nat then 0 else 1))%nat with 8%nat in H1 by reflexivity.
    split; [apply H2; lia|lia]. }
  apply join_slash_length_bounds in Hb; [|done].
  rewrite length_map in Hb. change (length ranks_desc) with 8%nat in Hb. lia.
Qed.

Lemma grid_line_length (b : Board) (rank : nat) : String.length (grid_line b rank) = 9%nat.
Proof.
  unfold grid_line, rank_squares. rewrite slength_app, slength_of_list, !length_map, length_seq.
  reflexivity.
Qed.

(** Every grid of [to_str] has exactly 83 characters: 8 lines of 8 squares
    and a newline, then "Turn: White" or "Turn: Black". *)
Theorem to_str_length (b : Board) : String.length (to_str b) = 83%nat.
Proof.
  unfold to_str, push_str. rewrite grid_ranks_app, sapp_nil_l, !slength_app.
  cbn [ranks_desc seq rev app map concat_all].
  rewrite !slength_app, !grid_line_length. by destruct (turn b).
Qed.

(** ** The black king draw *)

Lemma black_king_draws_ok_true (coin : bool) :
  forallb (fun wk =>
    bool_decide (
      map (fun n => option_map black_king_squares (random coin wk (Z.of_nat n)))
          (seq 0 (Z.to_nat (free_squares_n wk))) =
      map (fun s => Some [s])
          (List.filter (fun s => 2 <=? chebyshev wk s) (seq 0 N_SQUARES))))
    (seq 0 N_SQUARES) = true.
Proof. destruct coin; vm_compute; reflexivity. Qed.

(** For every white-king square [wk < 64], the draws [r = 0, ...,
    free_squares_n - 1] put the black king on the squares at Chebyshev
    distance at least 2 from [wk], in ascending order, each exactly once:
    a uniform draw of [r] is a uniform choice among the legal squares. *)
Theorem black_king_draw_bijection (coin : bool) (wk : nat) (Hwk : wk < N_SQUARES) :
  map (fun n => option_map black_king_squares (random coin wk (Z.of_nat n)))
      (seq 0 (Z.to_nat (free_squares_n wk))) =
  map (fun s => Some [s]) (List.filter (fun s => 2 <=? chebyshev wk s) (seq 0 N_SQUARES)).
Proof.
  pose proof (forallb_seq_at _ _ _ (black_king_draws_ok_true coin) Hwk) as Hc.
  cbv beta in Hc. exact (bool_decide_eq_true_1 _ Hc).
Qed.

Lemma black_king_draw_bijection_witness :
  7 < N_SQUARES /\
  map (fun n => option_map black_king_squares (random true 7 (Z.of_nat n)))
      (seq 0 (Z.to_nat (free_squares_n 7))) =
  map (fun s => Some [s]) (List.filter (fun s => 2 <=? chebyshev 7 s) (seq 0 N_SQUARES)).
Proof.
  split; [unfold N_SQUARES; lia|].
  apply black_king_draw_bijection. unfold N_SQUARES; lia.
Defined.

(** ** [random_fen] *)

Lemma board_set_turn (b b' : Board) (i : nat) (v : option Piece) :
  board_set b i v = Some b' -> turn b' = turn b.
Proof.
  unfold board_set. destruct (decide _); [|discriminate]. intros H. by injection H as <-.
Qed.

Lemma random_turn (coin : bool) (wk : nat) (r : Z) (b : Board) :
  random coin wk r = Some b -> turn b = if coin then White else Black.
Proof.
  unfold random. intros H.
  apply bind_Some in H as (b1 & E1 & H). cbv beta in H.
  apply board_set_turn in E1.
  apply bind_Some in H as ([occ n] & _ & H). cbv beta iota in H.
  apply bind_Some in H as ([buf j] & _ & H). cbv beta iota in H.
  destruct (n <=? 0)%Z; [discriminate|].
  apply bind_Some in H as (bk & _ & H). cbv beta in H.
  apply board_set_turn in H. rewrite H, E1. reflexivity.
Qed.

(** For every outcome of the draws, [random_fen] returns a FEN whose reading
    gives the White King on [wk], the Black King on a square [bk] at
    Chebyshev distance at least 2, every other square empty, and the side
    to move of the coin (White for [true]). *)
Theorem random_fen_reads_back (coin : bool) (wk : nat) (r : Z)
  (Hwk : wk < N_SQUARES) (Hr : (0 <= r < free_squares_n wk)%Z) :
  exists s sq bk,
    random_fen coin wk r = Some s /\
    parse_fen s = (sq, Some (if coin then White else Black)) /\
    nth wk sq None = Some white_king /\ nth bk sq None = Some black_king /\
    2 <= chebyshev wk bk /\
    (forall i, i <> wk -> i <> bk -> nth i sq None = None).
Proof.
  pose proof (placement_ok_at coin wk r Hwk Hr) as H. unfold placement_ok in H.
  destruct (random coin wk r) as [b|] eqn:Hb; [|discriminate].
  apply kings_ok_spec in H as (bk & Hw & Hbk & _ & _ & Hch & Hrest).
  exists (to_str_fen b), (squares b), bk.
  split; [unfold random_fen; by rewrite Hb|].
  split; [rewrite parse_to_str_fen; by rewrite (random_turn coin wk r b Hb)|].
  done.
Qed.

Lemma random_fen_reads_back_witness :
  (12 < N_SQUARES /\ (0 <= 30 < free_squares_n 12)%Z) /\
  exists s sq bk,
    random_fen false 12 30 = Some s /\
    parse_fen s = (sq, Some (if false then White else Black)) /\
    nth 12 sq None = Some white_king /\ nth bk sq None = Some black_king /\
    2 <= chebyshev 12 bk /\
    (forall i, i <> 12 -> i <> bk -> nth i sq None = None).
Proof.
  assert (E : free_squares_n 12 = 55%Z) by reflexivity.
  split; [unfold N_SQUARES; rewrite E; lia|].
  apply (random_fen_reads_back false 12 30); unfold N_SQUARES; rewrite ?E; lia.
Defined.
